(** * Data-stream anomaly detection: the replay engine of [app.py]

    A shallow embedding of [src/app.py]: the module-level globals, the
    z-score helper, the outcome of [load_dataset], the body of [stream_data]
    (one lock-protected block per step), the two read-only endpoints
    [get_data] and [get_metrics], and the engine thread started beside the
    server by the main block.

    Numbers.  Python floats are read as real numbers ([R]): sums, means and
    the z-score are the exact ones, rounding is not modelled.  Python ints
    that count or index are [nat]; the anomaly flags, which the code stores
    as the ints [1] and [0], are [Z]. *)

From Stdlib Require Import String Reals Lra Lia ZArith Bool Arith List.
Import ListNotations.
Open Scope R_scope.

(** ** Python built-ins used by the module *)

(** [l[-n:]] for a positive literal [n]: the last [n] items, the whole
    list when it has fewer. *)
Definition py_last {A : Type} (n : nat) (l : list A) : list A :=
  skipn (length l - n) l.

(** [sum(l)] on floats: starts from [0] and adds from the left. *)
Definition py_sum (l : list R) : R := fold_left Rplus l 0.

(** [sum(l)] on ints. *)
Definition py_sum_int (l : list Z) : Z := fold_left Z.add l 0%Z.

(** ** Readings *)

(** One record of [df[['datetime', 'Current']].to_dict(orient='records')]. *)
Record Reading : Type := mkReading {
  datetime : string;
  Current : R
}.

(** ** The detector *)

(** The sample variance (n-1 denominator) under [series_std]. *)
Definition sample_variance (values : list R) : R :=
  let avg := py_sum values / INR (length values) in
  py_sum (map (fun v => (v - avg) * (v - avg)) values)
  / (INR (length values) - 1).

(** Modelled from the spec: [pd.Series(current_values).std()] is pandas, not
    code of this repository; it is the sample standard deviation (n-1
    denominator) of the values. *)
Definition series_std (values : list R) : R := sqrt (sample_variance values).

Definition z_threshold : R := 23 / 10.

(** [sum(values) / len(values)], the mean of lines 94 and 154. *)
Definition mean_of (values : list R) : R := py_sum values / INR (length values).

Definition calculate_z_score (value mean std : R) : R :=
  if Req_dec_T std 0 then 0 else (value - mean) / std.

(** [[d['Current'] for d in data_stream[-50:]]] *)
Definition current_values (data_stream : list Reading) : list R :=
  map Current (py_last 50 data_stream).

(** Lines 91-105 of [stream_data]: the flag appended for [data_point], read
    off [data_stream] as it stands at that line, that is with [data_point]
    already appended (line 88). *)
Definition detect (data_stream : list Reading) (data_point : Reading) : Z :=
  if (50 <? length data_stream)%nat then
    let mean := mean_of (current_values data_stream) in
    let std := series_std (current_values data_stream) in
    let z_score := calculate_z_score (Current data_point) mean std in
    if Rgt_dec (Rabs z_score) z_threshold then 1%Z else 0%Z
  else 0%Z.

(** ** The globals and the two lock-protected blocks *)

Record Globals : Type := mkGlobals {
  data_stream : list Reading;
  anomaly_flags : list Z;
  current_index : nat;
  total_processing_time : R;
  processed_points : nat;
  data : list Reading
}.

Definition init : Globals :=
  {| data_stream := []; anomaly_flags := []; current_index := 0%nat;
     total_processing_time := 0; processed_points := 0%nat; data := [] |}.

(** What the engine reads from outside the program in one step: the
    dataset file as [pd.read_csv] and the conversions of lines 33-39 find it
    ([None] when the file is missing or one of them raises, otherwise its
    rows) and the two clock readings of [time.time()]. *)
Record Env : Type := mkEnv {
  dataset_rows : option (list Reading);
  start_time : R;
  end_time : R
}.

(** Lines 26-45.  Every exception raised inside [try] ends in [exit(1)],
    rendered [None].  A file that parses to no rows raises as well
    ([df['datetime'].dt] on a column that holds no dates), so the function
    returns a list only when the file has at least one row. *)
Definition load_dataset (env : Env) : option (list Reading) :=
  match dataset_rows env with
  | Some (r :: rows) => Some (r :: rows)
  | Some [] => None
  | None => None
  end.

(** Lines 84-113: the block under the lock for one data point. *)
Definition tick (env : Env) (data_point : Reading) (g : Globals) : Globals :=
  let data_stream' := data_stream g ++ [data_point] in
  let flag := detect data_stream' data_point in
  let processing_time := (end_time env - start_time env) * 1000 in
  {| data_stream := data_stream';
     anomaly_flags := anomaly_flags g ++ [flag];
     current_index := S (current_index g);
     total_processing_time := total_processing_time g + processing_time;
     processed_points := S (processed_points g);
     data := data g |}.

(** Lines 116-121: the reset block under the lock. *)
Definition reset (g : Globals) : Globals :=
  {| data_stream := []; anomaly_flags := []; current_index := 0%nat;
     total_processing_time := 0; processed_points := 0%nat; data := data g |}.

(** ** The loop of [stream_data] *)

(** Where the engine thread stands between two steps: at the head of
    [while True] or at the head of the inner [while]. *)
Inductive Loc : Type := OuterLoop | InnerLoop.

Inductive Outcome : Type :=
| Running (pc : Loc) (g : Globals)
| Exit (code : Z)          (* [exit(1)] inside [load_dataset] *)
| IndexError.              (* [data[current_index]] out of range *)

(** One step of the thread.  Each lock-protected block is one step, so the
    globals between two steps are exactly what a reader holding the lock
    can see. *)
Definition engine_step (env : Env) (pc : Loc) (g : Globals) : Outcome :=
  match pc with
  | OuterLoop =>
      match data g with
      | [] =>
          match load_dataset env with
          | Some d =>
              Running InnerLoop
                {| data_stream := data_stream g;
                   anomaly_flags := anomaly_flags g;
                   current_index := current_index g;
                   total_processing_time := total_processing_time g;
                   processed_points := processed_points g;
                   data := d |}
          | None => Exit 1
          end
      | _ :: _ => Running InnerLoop g
      end
  | InnerLoop =>
      if (current_index g <? length (data g))%nat then
        match nth_error (data g) (current_index g) with
        | Some data_point => Running InnerLoop (tick env data_point g)
        | None => IndexError
        end
      else Running OuterLoop (reset g)
  end.

(** [n] steps of the thread, one environment per step. *)
Fixpoint run (envs : nat -> Env) (n : nat) (pc : Loc) (g : Globals) : Outcome :=
  match n with
  | O => Running pc g
  | S n' =>
      match run envs n' pc g with
      | Running pc' g' => engine_step (envs n') pc' g'
      | stopped => stopped
      end
  end.

(** The states the thread can be in between two steps. *)
Inductive reachable : Loc -> Globals -> Prop :=
| reachable_init : reachable OuterLoop init
| reachable_step env pc g pc' g' :
    reachable pc g ->
    engine_step env pc g = Running pc' g' ->
    reachable pc' g'.

(** ** The endpoints *)

(** [get_data]: the two slices taken under the lock. *)
Definition get_data (g : Globals) : list Reading * list Z :=
  (py_last 100 (data_stream g), py_last 100 (anomaly_flags g)).

Record Metrics : Type := mkMetrics {
  total_points : nat;
  anomalies_detected : Z;
  average_processing_time : R;
  average_current_value : R
}.

(** [get_metrics]: the four values computed under the lock. *)
Definition get_metrics (g : Globals) : Metrics :=
  let total_points := length (data_stream g) in
  {| total_points := total_points;
     anomalies_detected := py_sum_int (anomaly_flags g);
     average_processing_time :=
       if (0 <? processed_points g)%nat
       then total_processing_time g / INR (processed_points g) else 0;
     average_current_value :=
       if (0 <? total_points)%nat
       then py_sum (map Current (data_stream g)) / INR total_points else 0 |}.

(** ** Readers interleaved with the thread *)

Inductive Request : Type := GetData | GetMetrics.

Inductive Reply : Type :=
| DataReply (data_points : list Reading) (flags : list Z)
| MetricsReply (m : Metrics).

(** A request handler: its [with lock] block reads the globals in one go. *)
Definition serve (r : Request) (g : Globals) : Reply :=
  match r with
  | GetData => DataReply (fst (get_data g)) (snd (get_data g))
  | GetMetrics => MetricsReply (get_metrics g)
  end.

Inductive Action : Type :=
| EngineStep (env : Env)
| Serve (r : Request).

(** The replies produced by a schedule of thread steps and requests.  The
    lock makes every block of the thread and every handler read exclude one
    another, so a schedule is a sequence of whole actions.  The schedule is
    followed for as long as the thread runs. *)
Fixpoint interleave (acts : list Action) (pc : Loc) (g : Globals) : list Reply :=
  match acts with
  | [] => []
  | Serve r :: acts' => serve r g :: interleave acts' pc g
  | EngineStep env :: acts' =>
      match engine_step env pc g with
      | Running pc' g' => interleave acts' pc' g'
      | _ => []
      end
  end.

(** A reply whose two lists have one length. *)
Definition aligned (r : Reply) : Prop :=
  match r with
  | DataReply data_points flags => length flags = length data_points
  | MetricsReply _ => True
  end.

(** ** The process: the engine thread beside the server *)

(** Lines 165-171 start [stream_data] in a thread of its own and then run
    the server in the main thread.  [exit(1)] raises [SystemExit] in the
    thread that calls it: raised in the engine thread it ends that thread
    and nothing else, and so does an exception nobody catches. *)
Inductive EngineThread : Type :=
| Started (pc : Loc)
| Ended.

(** The replies of the process to a schedule of engine steps and requests,
    whether the engine thread is still there or not. *)
Fixpoint process (acts : list Action) (th : EngineThread) (g : Globals)
  : list Reply :=
  match acts with
  | [] => []
  | Serve r :: acts' => serve r g :: process acts' th g
  | EngineStep env :: acts' =>
      match th with
      | Started pc =>
          match engine_step env pc g with
          | Running pc' g' => process acts' (Started pc') g'
          | Exit _ => process acts' Ended g
          | IndexError => process acts' Ended g
          end
      | Ended => process acts' Ended g
      end
  end.


(** ** The detector as a function of the history and the candidate *)

(** The verdict [stream_data] records for [candidate] when the buffer holds
    [window] before the tick: what [tick] appends to [anomaly_flags]. *)
Definition classify (window : list Reading) (candidate : Reading) : Z :=
  detect (window ++ [candidate]) candidate.

(** The sample whose mean and standard deviation a tick uses. *)
Definition tick_sample (window : list Reading) (candidate : Reading) : list R :=
  current_values (window ++ [candidate]).

(** Lines 91-105 with the two statistics left open: [mean_fn] and [std_fn]
    stand for whatever [sum(current_values) / len(current_values)] and
    [pd.Series(current_values).std()] return on the sample, rounding
    included.  [detect] is the instance at the exact mean and deviation. *)
Definition detect_with (mean_fn std_fn : list R -> R)
           (data_stream : list Reading) (data_point : Reading) : Z :=
  if (50 <? length data_stream)%nat then
    let mean := mean_fn (current_values data_stream) in
    let std := std_fn (current_values data_stream) in
    let z_score := calculate_z_score (Current data_point) mean std in
    if Rgt_dec (Rabs z_score) z_threshold then 1%Z else 0%Z
  else 0%Z.

Definition classify_with (mean_fn std_fn : list R -> R)
           (window : list Reading) (candidate : Reading) : Z :=
  detect_with mean_fn std_fn (window ++ [candidate]) candidate.


(** The detector as section 4.1 of the specification words it, for
    comparison with [classify]: the statistics are those of the last 50
    values of [window], which does not hold the candidate. *)
Definition spec_Classify (window : list R) (candidate threshold : R) : bool :=
  if (length window <=? 50)%nat then false
  else
    let sample := py_last 50 window in
    let z := calculate_z_score candidate (mean_of sample) (series_std sample) in
    if Rgt_dec (Rabs z) threshold then true else false.

(** ** Concrete inputs used by the examples below *)

Definition reading (v : R) : Reading := mkReading "2020-03-09 10:14:33" v.

(** Fifty readings of 1.0, then a candidate of 50.0. *)
Definition fifty_ones : list Reading := repeat (reading 1) 50.

(** Fifty-one readings of 5.0, then a candidate of 100.0. *)
Definition flat_history : list Reading := repeat (reading 5) 51.

(** Twenty-six readings of 0.0 followed by twenty-five of 2.0; the candidate
    is 3.4. *)
Definition two_level_history : list Reading :=
  repeat (reading 0) 26 ++ repeat (reading 2) 25.

(** A tick that takes one millisecond and needs no load. *)
Definition one_ms : Env := mkEnv None 0 (1 / 1000).

(** The globals after fifty-one ticks over readings of 5.0. *)
Definition flat_globals : Globals :=
  {| data_stream := flat_history; anomaly_flags := repeat 0%Z 51;
     current_index := 51; total_processing_time := 51;
     processed_points := 51; data := flat_history ++ [reading 100] |}.

(** A source of two readings, loaded at the first step. *)
Definition two_readings : list Reading := [reading 1; reading 2].

Definition load_two : Env := mkEnv (Some two_readings) 0 (1 / 1000).

(** The globals after the load and one tick over [two_readings]. *)
Definition after_first_tick : Globals :=
  tick load_two (reading 1)
    {| data_stream := []; anomaly_flags := []; current_index := 0%nat;
       total_processing_time := 0; processed_points := 0%nat;
       data := two_readings |}.

(** The globals when the cursor has reached the end of [two_readings]. *)
Definition after_last_tick : Globals := tick load_two (reading 2) after_first_tick.



(** ** The invariant of the loop *)

(** What holds of the globals between any two steps of the thread. *)
Record consistent (pc : Loc) (g : Globals) : Prop := mkConsistent {
  flags_aligned : length (anomaly_flags g) = length (data_stream g);
  processed_is_length : processed_points g = length (data_stream g);
  index_is_length : current_index g = length (data_stream g);
  flags_binary : Forall (fun f => f = 0%Z \/ f = 1%Z) (anomaly_flags g);
  stream_is_prefix : data_stream g = firstn (current_index g) (data g);
  outer_is_reset : pc = OuterLoop -> g = reset g
}.

(** ** Notions used by the further properties *)

(** A clock that does not run backwards between the two [time.time()]
    calls of a tick. *)
Definition monotone_clock (envs : nat -> Env) : Prop :=
  forall k, start_time (envs k) <= end_time (envs k).

(** The globals right after a reset, with a source [d] loaded. *)
Definition fresh (d : list Reading) : Globals :=
  {| data_stream := []; anomaly_flags := []; current_index := 0%nat;
     total_processing_time := 0; processed_points := 0%nat; data := d |}.

(** The same load and first tick as [after_first_tick] under a clock on
    which the tick takes a whole second. *)
Definition load_two_slow : Env := mkEnv (Some two_readings) 0 1.

Definition after_first_tick_slow : Globals :=
  tick load_two_slow (reading 1) (fresh two_readings).

(** A schedule of environments: the first load gives [two_readings], every
    later load would fail, every tick takes a millisecond. *)
Definition load_once : nat -> Env :=
  fun k => match k with O => load_two | S _ => one_ms end.

(** Globals holding a hundred readings of 5.0, none flagged. *)
Definition hundred_globals : Globals :=
  {| data_stream := repeat (reading 5) 100; anomaly_flags := repeat 0%Z 100;
     current_index := 100; total_processing_time := 100;
     processed_points := 100; data := repeat (reading 5) 101 |}.

(** ** Sums and slices *)

Lemma fold_left_Rplus_acc (l : list R) (a : R) :
  fold_left Rplus l a = a + py_sum l.
Proof.
  unfold py_sum. revert a.
  induction l as [|x l IH]; intros a; simpl.
  - lra.
  - rewrite (IH (a + x)), (IH (0 + x)). lra.
Qed.

Lemma py_sum_nil : py_sum [] = 0.
Proof. reflexivity. Qed.

Lemma py_sum_cons (x : R) (l : list R) : py_sum (x :: l) = x + py_sum l.
Proof.
  unfold py_sum at 1. simpl. rewrite fold_left_Rplus_acc. lra.
Qed.

Lemma py_sum_app (l1 l2 : list R) : py_sum (l1 ++ l2) = py_sum l1 + py_sum l2.
Proof.
  induction l1 as [|x l1 IH]; simpl.
  - rewrite py_sum_nil. lra.
  - rewrite !py_sum_cons, IH. lra.
Qed.

Lemma py_sum_repeat (x : R) (n : nat) : py_sum (repeat x n) = INR n * x.
Proof.
  induction n as [|n IH].
  - simpl. rewrite py_sum_nil. lra.
  - change (repeat x (S n)) with (x :: repeat x n).
    rewrite py_sum_cons, IH, S_INR. lra.
Qed.

Lemma py_sum_nonneg (l : list R) :
  Forall (fun x => 0 <= x) l -> 0 <= py_sum l.
Proof.
  induction 1 as [|x l Hx _ IH].
  - rewrite py_sum_nil. lra.
  - rewrite py_sum_cons. lra.
Qed.

Lemma py_last_length {A : Type} (n : nat) (l : list A) :
  length (py_last n l) = Nat.min n (length l).
Proof. unfold py_last. rewrite length_skipn. lia. Qed.

Lemma py_last_snoc {A : Type} (n : nat) (l : list A) (x : A) :
  py_last (S n) (l ++ [x]) = py_last n l ++ [x].
Proof.
  unfold py_last. rewrite length_app. simpl length.
  replace (length l + 1 - S n)%nat with (length l - n)%nat by lia.
  rewrite skipn_app.
  replace (length l - n - length l)%nat with 0%nat by lia.
  reflexivity.
Qed.

Lemma py_last_short {A : Type} (n : nat) (l : list A) :
  (length l <= n)%nat -> py_last n l = l.
Proof.
  intros H. unfold py_last.
  replace (length l - n)%nat with 0%nat by lia. reflexivity.
Qed.

Lemma tick_sample_snoc (window : list Reading) (candidate : Reading) :
  tick_sample window candidate
  = map Current (py_last 49 window) ++ [Current candidate].
Proof.
  unfold tick_sample, current_values.
  rewrite py_last_snoc, map_app. reflexivity.
Qed.

(** ** The z-score test without the square root *)

Lemma calculate_z_score_zero_std (value mean : R) :
  calculate_z_score value mean 0 = 0.
Proof.
  unfold calculate_z_score. destruct (Req_dec_T 0 0) as [_|H]; [reflexivity|].
  contradiction H; reflexivity.
Qed.

Lemma calculate_z_score_nonzero_std (value mean std : R) :
  std <> 0 -> calculate_z_score value mean std = (value - mean) / std.
Proof.
  intros H. unfold calculate_z_score.
  destruct (Req_dec_T std 0) as [E|_]; [contradiction|reflexivity].
Qed.

(** For a positive variance [v], [|d / sqrt v| > t] is [d*d > t*t*v]. *)
Lemma abs_ratio_sqrt_gt (d v t : R) :
  0 < v -> 0 <= t ->
  (Rabs (d / sqrt v) > t <-> d * d > t * t * v).
Proof.
  intros Hv Ht.
  pose proof (sqrt_lt_R0 v Hv) as Hs.
  pose proof (sqrt_sqrt v (Rlt_le _ _ Hv)) as Hss.
  assert (Habs : Rabs (d / sqrt v) = Rabs d / sqrt v).
  { unfold Rdiv. rewrite Rabs_mult, Rabs_inv.
    rewrite (Rabs_pos_eq (sqrt v)) by lra. reflexivity. }
  rewrite Habs.
  pose proof (Rabs_pos d) as Hd.
  assert (Hdd : Rabs d * Rabs d = d * d).
  { unfold Rabs. destruct (Rcase_abs d); lra. }
  split; intros H.
  - assert (H1 : t * sqrt v < Rabs d).
    { apply (Rmult_lt_reg_r (/ sqrt v)).
      - apply Rinv_0_lt_compat; exact Hs.
      - replace (t * sqrt v * / sqrt v) with t by (field; lra).
        exact H. }
    assert (H2 : 0 <= t * sqrt v) by (apply Rmult_le_pos; lra).
    assert (H3 : (t * sqrt v) * (t * sqrt v) < Rabs d * Rabs d) by nra.
    replace ((t * sqrt v) * (t * sqrt v)) with (t * t * (sqrt v * sqrt v)) in H3
      by ring.
    rewrite Hss, Hdd in H3. lra.
  - assert (H1 : t * sqrt v < Rabs d).
    { destruct (Rlt_dec (t * sqrt v) (Rabs d)) as [Hlt|Hge]; [exact Hlt|].
      exfalso.
      assert (H2 : Rabs d * Rabs d <= (t * sqrt v) * (t * sqrt v)) by nra.
      replace ((t * sqrt v) * (t * sqrt v)) with (t * t * (sqrt v * sqrt v)) in H2
        by ring.
      rewrite Hss, Hdd in H2. lra. }
    unfold Rdiv.
    apply (Rmult_lt_reg_r (sqrt v)); [exact Hs|].
    replace (Rabs d * / sqrt v * sqrt v) with (Rabs d) by (field; lra).
    exact H1.
Qed.

(** ** The detector: cold start and the warm branch *)

Lemma detect_cold (ds : list Reading) (dp : Reading) :
  (length ds <= 50)%nat -> detect ds dp = 0%Z.
Proof.
  intros H. unfold detect.
  destruct (Nat.ltb_spec 50 (length ds)) as [Hlt|_]; [lia|reflexivity].
Qed.

Lemma detect_warm (ds : list Reading) (dp : Reading) :
  (50 < length ds)%nat ->
  detect ds dp =
  if Rgt_dec (Rabs (calculate_z_score (Current dp)
                      (mean_of (current_values ds))
                      (series_std (current_values ds)))) z_threshold
  then 1%Z else 0%Z.
Proof.
  intros H. unfold detect.
  destruct (Nat.ltb_spec 50 (length ds)) as [_|Hle]; [reflexivity|lia].
Qed.

Lemma classify_warm (window : list Reading) (candidate : Reading) :
  (50 <= length window)%nat ->
  classify window candidate =
  if Rgt_dec (Rabs (calculate_z_score (Current candidate)
                      (mean_of (tick_sample window candidate))
                      (series_std (tick_sample window candidate)))) z_threshold
  then 1%Z else 0%Z.
Proof.
  intros H. unfold classify, tick_sample. apply detect_warm.
  rewrite length_app. simpl. lia.
Qed.

Lemma classify_cold (window : list Reading) (candidate : Reading) :
  (length window < 50)%nat -> classify window candidate = 0%Z.
Proof.
  intros H. unfold classify. apply detect_cold.
  rewrite length_app. cbn [length]. lia.
Qed.

Lemma tick_appends_classify (env : Env) (dp : Reading) (g : Globals) :
  data_stream (tick env dp g) = data_stream g ++ [dp] /\
  anomaly_flags (tick env dp g) = anomaly_flags g ++ [classify (data_stream g) dp].
Proof. split; reflexivity. Qed.

(** ** Statistics of the samples used in the examples *)

Lemma sample_variance_nonneg (values : list R) :
  (2 <= length values)%nat -> 0 <= sample_variance values.
Proof.
  intros H. unfold sample_variance.
  apply Rmult_le_pos.
  - apply py_sum_nonneg. apply Forall_forall. intros x Hx.
    apply in_map_iff in Hx. destruct Hx as [v [<- _]]. cbv beta.
    apply Rle_0_sqr.
  - apply Rlt_le, Rinv_0_lt_compat.
    assert (2 <= INR (length values)) by (apply (le_INR 2); exact H). lra.
Qed.

(** A sample of [n] equal values has mean that value and variance 0. *)
Lemma mean_of_repeat (a : R) (n : nat) :
  (0 < n)%nat -> mean_of (repeat a n) = a.
Proof.
  intros H. unfold mean_of. rewrite py_sum_repeat, repeat_length.
  field. apply not_0_INR. lia.
Qed.

Lemma sample_variance_repeat (a : R) (n : nat) :
  (0 < n)%nat -> sample_variance (repeat a n) = 0.
Proof.
  intros H. unfold sample_variance.
  fold (mean_of (repeat a n)). rewrite mean_of_repeat by exact H.
  rewrite map_repeat, py_sum_repeat.
  unfold Rdiv. ring.
Qed.

Lemma series_std_repeat (a : R) (n : nat) :
  (0 < n)%nat -> series_std (repeat a n) = 0.
Proof.
  intros H. unfold series_std. rewrite sample_variance_repeat by exact H.
  apply sqrt_0.
Qed.

(** Forty-nine equal values [a] followed by one value [c]. *)
Lemma mean_of_outlier (a c : R) :
  mean_of (repeat a 49 ++ [c]) = (49 * a + c) / 50.
Proof.
  unfold mean_of. rewrite py_sum_app, py_sum_repeat, py_sum_cons, py_sum_nil.
  rewrite length_app, repeat_length. simpl length.
  change (49 + 1)%nat with 50%nat.
  rewrite !INR_IZR_INZ. simpl Z.of_nat. field.
Qed.

Lemma sample_variance_outlier (a c : R) :
  sample_variance (repeat a 49 ++ [c]) = (c - a) * (c - a) / 50.
Proof.
  unfold sample_variance. fold (mean_of (repeat a 49 ++ [c])).
  rewrite mean_of_outlier.
  rewrite map_app, map_repeat, py_sum_app, py_sum_repeat.
  simpl map. rewrite py_sum_cons, py_sum_nil.
  rewrite length_app, repeat_length. simpl length.
  change (49 + 1)%nat with 50%nat.
  rewrite !INR_IZR_INZ. simpl Z.of_nat. field.
Qed.

(** With forty-nine equal readings before it, any different candidate is
    flagged: its z-score is 49 / sqrt 50 in absolute value. *)
Lemma classify_outlier (window : list Reading) (candidate : Reading) (a : R) :
  (50 <= length window)%nat ->
  map Current (py_last 49 window) = repeat a 49 ->
  Current candidate <> a ->
  classify window candidate = 1%Z.
Proof.
  intros Hlen Hflat Hne.
  rewrite classify_warm by exact Hlen.
  rewrite tick_sample_snoc, Hflat.
  unfold series_std. rewrite mean_of_outlier, sample_variance_outlier.
  set (c := Current candidate) in *.
  assert (Hv : 0 < (c - a) * (c - a) / 50) by nra.
  rewrite calculate_z_score_nonzero_std
    by (apply Rgt_not_eq, Rlt_gt, sqrt_lt_R0; exact Hv).
  destruct (Rgt_dec _ z_threshold) as [_|Hn]; [reflexivity|].
  exfalso. apply Hn. unfold z_threshold.
  apply abs_ratio_sqrt_gt; [exact Hv|lra|].
  replace ((c - (49 * a + c) / 50) * (c - (49 * a + c) / 50))
    with (2401 / 50 * ((c - a) * (c - a) / 50)) by field.
  lra.
Qed.

(** Rewrites sums, means and variances of samples built from [repeat],
    [++] and literals into closed arithmetic. *)
Ltac eval_stats :=
  unfold series_std, sample_variance, mean_of;
  rewrite ?map_app, ?map_repeat;
  simpl map;
  rewrite ?py_sum_app, ?py_sum_repeat, ?py_sum_cons, ?py_sum_nil;
  rewrite ?length_app, ?repeat_length;
  simpl length; simpl Nat.add;
  rewrite ?INR_IZR_INZ; simpl Z.of_nat.

Lemma current_values_fifty_ones_spike :
  tick_sample fifty_ones (reading 50) = repeat 1 49 ++ [50].
Proof. reflexivity. Qed.

Lemma current_values_flat_history :
  current_values flat_history = repeat 5 50.
Proof. reflexivity. Qed.

Lemma tick_sample_flat_history (c : R) :
  tick_sample flat_history (reading c) = repeat 5 49 ++ [c].
Proof. reflexivity. Qed.

Lemma current_values_two_level :
  current_values two_level_history = repeat 0 25 ++ repeat 2 25.
Proof. reflexivity. Qed.

Lemma tick_sample_two_level (c : R) :
  tick_sample two_level_history (reading c) = repeat 0 24 ++ repeat 2 25 ++ [c].
Proof. reflexivity. Qed.

Lemma mean_of_two_level : mean_of (repeat 0 25 ++ repeat 2 25) = 1.
Proof. eval_stats. field. Qed.

Lemma sample_variance_two_level :
  sample_variance (repeat 0 25 ++ repeat 2 25) = 50 / 49.
Proof. eval_stats. field. Qed.

Lemma mean_of_two_level_tick :
  mean_of (repeat 0 24 ++ repeat 2 25 ++ [17 / 5]) = 267 / 250.
Proof. eval_stats. field. Qed.

Lemma sample_variance_two_level_tick :
  sample_variance (repeat 0 24 ++ repeat 2 25 ++ [17 / 5]) = 68161 / 61250.
Proof. eval_stats. field. Qed.

(** ** Claims about the detector *)

(** C1, as stated, fails: with a history of exactly fifty readings the
    detector already runs.  Fifty readings of 1.0 followed by 50.0: the
    buffer holds 51 entries when line 91 tests it, and 50.0 is flagged. *)
Lemma cold_start_fifty_history_flagged :
  (length fifty_ones <= 50)%nat /\ classify fifty_ones (reading 50) = 1%Z.
Proof.
  split.
  - unfold fifty_ones. rewrite repeat_length. lia.
  - apply (classify_outlier _ _ 1).
    + unfold fifty_ones. rewrite repeat_length. lia.
    + reflexivity.
    + unfold reading, Current. lra.
Qed.

(** C1, amended: for every history of fewer than fifty readings (the buffer,
    candidate included, has at most fifty entries) and every candidate, the
    recorded flag is 0. *)
Theorem classify_cold_start (window : list Reading) (candidate : Reading) :
  (length window < 50)%nat ->
  classify window candidate = 0%Z /\
  forall env g, data_stream g = window ->
    anomaly_flags (tick env candidate g) = anomaly_flags g ++ [0%Z].
Proof.
  intros H.
  assert (Hc : classify window candidate = 0%Z) by (apply classify_cold; exact H).
  split; [exact Hc|].
  intros env g Hg.
  destruct (tick_appends_classify env candidate g) as [_ ->].
  rewrite Hg, Hc. reflexivity.
Qed.

Lemma classify_cold_start_witness :
  (length (repeat (reading 1) 49) < 50)%nat /\
  classify (repeat (reading 1) 49) (reading 50) = 0%Z.
Proof.
  split.
  - rewrite repeat_length. lia.
  - apply (classify_cold_start (repeat (reading 1) 49) (reading 50)).
    rewrite repeat_length. lia.
Defined.

(** C2, as stated, fails: after fifty-one readings of 5.0 the candidate
    100.0 is classified against a mean of 6.9 and a non-zero deviation,
    those of the buffer with 100.0 in it; the fifty readings before it have
    mean 5 and deviation 0, under which no candidate is anomalous, yet the
    tick records 1. *)
Lemma tick_statistics_include_candidate :
  mean_of (tick_sample flat_history (reading 100)) = 69 / 10 /\
  mean_of (current_values flat_history) = 5 /\
  series_std (tick_sample flat_history (reading 100)) <> 0 /\
  series_std (current_values flat_history) = 0 /\
  spec_Classify (map Current flat_history) 100 z_threshold = false /\
  forall env g, data_stream g = flat_history ->
    anomaly_flags (tick env (reading 100) g) = anomaly_flags g ++ [1%Z].
Proof.
  rewrite tick_sample_flat_history, current_values_flat_history.
  repeat split.
  - rewrite mean_of_outlier. lra.
  - apply mean_of_repeat. lia.
  - unfold series_std. rewrite sample_variance_outlier.
    apply Rgt_not_eq, Rlt_gt, sqrt_lt_R0. lra.
  - apply series_std_repeat. lia.
  - unfold spec_Classify.
    replace (length (map Current flat_history) <=? 50)%nat with false
      by reflexivity.
    replace (py_last 50 (map Current flat_history)) with (repeat 5 50)
      by reflexivity.
    rewrite series_std_repeat by lia.
    rewrite calculate_z_score_zero_std, Rabs_R0.
    destruct (Rgt_dec 0 z_threshold) as [H|_]; [|reflexivity].
    unfold z_threshold in H. lra.
  - intros env g Hg.
    destruct (tick_appends_classify env (reading 100) g) as [_ ->].
    rewrite Hg. f_equal. f_equal.
    apply (classify_outlier _ _ 5).
    + unfold flat_history. rewrite repeat_length. lia.
    + reflexivity.
    + unfold reading, Current. lra.
Qed.

(** C2, amended: on every tick past cold start the sample whose mean and
    standard deviation classify the incoming reading is the last fifty
    entries of the buffer after the append: the forty-nine readings before
    the incoming one, then the incoming one itself. *)
Theorem tick_sample_after_append (env : Env) (g : Globals) (dp : Reading) :
  (50 <= length (data_stream g))%nat ->
  let sample := map Current (py_last 49 (data_stream g)) ++ [Current dp] in
  current_values (data_stream (tick env dp g)) = sample /\
  length sample = 50%nat /\
  anomaly_flags (tick env dp g) =
    anomaly_flags g ++
    [if Rgt_dec (Rabs (calculate_z_score (Current dp) (mean_of sample)
                         (series_std sample))) z_threshold
     then 1%Z else 0%Z].
Proof.
  intros H sample.
  assert (Hs : tick_sample (data_stream g) dp = sample)
    by apply tick_sample_snoc.
  repeat split.
  - exact Hs.
  - unfold sample. rewrite length_app, length_map, py_last_length.
    cbn [length]. lia.
  - destruct (tick_appends_classify env dp g) as [_ ->].
    rewrite classify_warm by exact H. rewrite Hs. reflexivity.
Qed.

Lemma tick_sample_after_append_witness :
  (50 <= length (data_stream flat_globals))%nat /\
  current_values (data_stream (tick one_ms (reading 100) flat_globals))
  = repeat 5 49 ++ [100].
Proof.
  assert (H : (50 <= length (data_stream flat_globals))%nat).
  { unfold flat_globals, flat_history. cbn [data_stream].
    rewrite repeat_length. lia. }
  split; [exact H|].
  destruct (tick_sample_after_append one_ms flat_globals (reading 100) H)
    as [E _].
  exact E.
Defined.

(** C3, as stated, fails: fifty-one readings of 5.0 (a flat window, sample
    deviation 0) followed by the candidate 100.0 give the flag 1. *)
Lemma flat_window_spike_flagged :
  (50 < length flat_history)%nat /\
  current_values flat_history = repeat 5 50 /\
  series_std (current_values flat_history) = 0 /\
  classify flat_history (reading 100) = 1%Z.
Proof.
  repeat split.
  - unfold flat_history. rewrite repeat_length. lia.
  - rewrite current_values_flat_history. apply series_std_repeat. lia.
  - apply (classify_outlier _ _ 5).
    + unfold flat_history. rewrite repeat_length. lia.
    + reflexivity.
    + unfold reading, Current. lra.
Qed.

Lemma classify_with_exact (window : list Reading) (candidate : Reading) :
  classify_with mean_of series_std window candidate = classify window candidate.
Proof. reflexivity. Qed.

(** C3, amended: however the mean and the standard deviation of the sample
    are computed ([mean_fn], [std_fn]: the last fifty buffer values,
    candidate included), whenever the standard deviation computed is
    exactly 0 the z-score is 0 and the recorded flag is 0.  Nothing is said
    of when that happens: a flat window followed by a different candidate
    does not give it, and neither need fifty equal values once the
    deviation is computed with rounding. *)
Theorem classify_zero_std (mean_fn std_fn : list R -> R)
        (window : list Reading) (candidate : Reading) :
  std_fn (tick_sample window candidate) = 0 ->
  calculate_z_score (Current candidate)
    (mean_fn (tick_sample window candidate))
    (std_fn (tick_sample window candidate)) = 0 /\
  classify_with mean_fn std_fn window candidate = 0%Z.
Proof.
  intros Hstd.
  assert (Hz : calculate_z_score (Current candidate)
                 (mean_fn (tick_sample window candidate))
                 (std_fn (tick_sample window candidate)) = 0)
    by (rewrite Hstd; apply calculate_z_score_zero_std).
  split; [exact Hz|].
  unfold classify_with, detect_with.
  destruct (50 <? length (window ++ [candidate]))%nat; [|reflexivity].
  cbv zeta. fold (tick_sample window candidate). rewrite Hz, Rabs_R0.
  destruct (Rgt_dec 0 z_threshold) as [H|_]; [|reflexivity].
  unfold z_threshold in H. lra.
Qed.

Lemma classify_zero_std_witness :
  series_std (tick_sample flat_history (reading 5)) = 0 /\
  classify_with mean_of series_std flat_history (reading 5) = 0%Z.
Proof.
  assert (H : series_std (tick_sample flat_history (reading 5)) = 0).
  { change (tick_sample flat_history (reading 5)) with (repeat 5 50).
    apply series_std_repeat. lia. }
  split; [exact H|].
  exact (proj2 (classify_zero_std mean_of series_std flat_history (reading 5) H)).
Defined.

(** C4, as stated, fails: after twenty-six readings of 0.0 and twenty-five
    of 2.0 the last fifty window values have mean 1 and a non-zero
    deviation, and the candidate 3.4 lies more than 2.3 deviations from
    that mean; the tick records 0. *)
Lemma prior_window_z_score_disagrees :
  (50 < length two_level_history)%nat /\
  series_std (current_values two_level_history) <> 0 /\
  Rabs ((Current (reading (17 / 5)) - mean_of (current_values two_level_history))
        / series_std (current_values two_level_history)) > z_threshold /\
  classify two_level_history (reading (17 / 5)) = 0%Z.
Proof.
  rewrite current_values_two_level.
  unfold series_std at 1 2. rewrite mean_of_two_level, sample_variance_two_level.
  assert (Hv : 0 < 50 / 49) by lra.
  repeat split.
  - unfold two_level_history. rewrite length_app, !repeat_length. lia.
  - apply Rgt_not_eq, Rlt_gt, sqrt_lt_R0. exact Hv.
  - unfold z_threshold, reading, Current.
    apply abs_ratio_sqrt_gt; [exact Hv|lra|lra].
  - rewrite classify_warm
      by (unfold two_level_history; rewrite length_app, !repeat_length; lia).
    rewrite tick_sample_two_level.
    unfold series_std.
    rewrite mean_of_two_level_tick, sample_variance_two_level_tick.
    assert (Hw : 0 < 68161 / 61250) by lra.
    rewrite calculate_z_score_nonzero_std
      by (apply Rgt_not_eq, Rlt_gt, sqrt_lt_R0; exact Hw).
    destruct (Rgt_dec _ z_threshold) as [H|_]; [|reflexivity].
    exfalso. unfold z_threshold, reading, Current in H.
    apply abs_ratio_sqrt_gt in H; [lra|exact Hw|lra].
Qed.

(** C4, amended: for every history of at least fifty readings, with [mean]
    the arithmetic mean and [std] the sample (n-1) standard deviation of the
    last fifty buffer values after the append (the forty-nine readings
    before the candidate and the candidate), if [std <> 0] the flag is 1
    exactly when [|(candidate - mean) / std| > 2.3], strictly; it is 0
    otherwise. *)
Theorem classify_warm_iff (window : list Reading) (candidate : Reading) :
  (50 <= length window)%nat ->
  let sample := map Current (py_last 49 window) ++ [Current candidate] in
  series_std sample <> 0 ->
  (classify window candidate = 1%Z <->
   Rabs ((Current candidate - mean_of sample) / series_std sample) > z_threshold)
  /\
  (classify window candidate = 0%Z <->
   Rabs ((Current candidate - mean_of sample) / series_std sample) <= z_threshold).
Proof.
  intros Hlen sample Hstd.
  rewrite classify_warm by exact Hlen.
  rewrite tick_sample_snoc. fold sample.
  rewrite calculate_z_score_nonzero_std by exact Hstd.
  destruct (Rgt_dec _ z_threshold) as [Hgt|Hle]; split; split; intros H;
    try reflexivity; try discriminate; try lra.
Qed.

Lemma classify_warm_iff_witness :
  (50 <= length flat_history)%nat /\
  series_std (repeat 5 49 ++ [100]) <> 0 /\
  (classify flat_history (reading 100) = 1%Z <->
   Rabs ((100 - mean_of (repeat 5 49 ++ [100]))
         / series_std (repeat 5 49 ++ [100])) > z_threshold).
Proof.
  assert (Hlen : (50 <= length flat_history)%nat).
  { unfold flat_history. rewrite repeat_length. lia. }
  assert (Hstd : series_std (repeat 5 49 ++ [100]) <> 0).
  { unfold series_std. rewrite sample_variance_outlier.
    apply Rgt_not_eq, Rlt_gt, sqrt_lt_R0. lra. }
  split; [exact Hlen|]. split; [exact Hstd|].
  exact (proj1 (classify_warm_iff flat_history (reading 100) Hlen Hstd)).
Defined.

(** ** The loop: invariant of the reachable states *)

Lemma detect_binary (ds : list Reading) (dp : Reading) :
  detect ds dp = 0%Z \/ detect ds dp = 1%Z.
Proof.
  unfold detect. destruct (50 <? length ds)%nat; [|left; reflexivity].
  cbv zeta. destruct (Rgt_dec _ z_threshold); [right|left]; reflexivity.
Qed.

Lemma firstn_succ_nth_error {A : Type} (l : list A) (i : nat) (x : A) :
  nth_error l i = Some x -> firstn (S i) l = firstn i l ++ [x].
Proof.
  revert i. induction l as [|y l IH]; intros [|i] H; simpl in H; try discriminate.
  - injection H as ->. reflexivity.
  - change (y :: firstn (S i) l = y :: (firstn i l ++ [x])).
    f_equal. exact (IH i H).
Qed.

Lemma consistent_init : consistent OuterLoop init.
Proof.
  constructor; try reflexivity. constructor.
Qed.

Lemma consistent_tick (env : Env) (pc : Loc) (g : Globals) (dp : Reading) :
  consistent pc g ->
  nth_error (data g) (current_index g) = Some dp ->
  consistent InnerLoop (tick env dp g).
Proof.
  intros [Hf Hp Hi Hb Hpre _] Hnth.
  constructor; cbn [tick data_stream anomaly_flags processed_points
                    current_index data].
  - rewrite !length_app, Hf. reflexivity.
  - rewrite length_app, Hp. simpl. lia.
  - rewrite length_app, Hi. simpl. lia.
  - apply Forall_app. split; [exact Hb|].
    constructor; [|constructor].
    destruct (detect_binary (data_stream g ++ [dp]) dp) as [->| ->]; auto.
  - rewrite (firstn_succ_nth_error _ _ _ Hnth), <- Hpre. reflexivity.
  - discriminate.
Qed.

Lemma consistent_reset (g : Globals) : consistent OuterLoop (reset g).
Proof.
  constructor; try reflexivity. constructor.
Qed.

Lemma consistent_step (env : Env) (pc pc' : Loc) (g g' : Globals) :
  consistent pc g ->
  engine_step env pc g = Running pc' g' ->
  consistent pc' g'.
Proof.
  intros Hc Hstep. destruct pc; simpl in Hstep.
  - pose proof (outer_is_reset _ _ Hc eq_refl) as Hr.
    destruct (data g) as [|r d] eqn:Hd.
    + destruct (load_dataset env) as [d|]; [|discriminate].
      injection Hstep as <- <-.
      rewrite Hr. cbn. constructor; try reflexivity; try discriminate.
      constructor.
    + injection Hstep as <- <-.
      destruct Hc as [Hf Hp Hi Hb Hpre _].
      constructor; try assumption. discriminate.
  - destruct (current_index g <? length (data g))%nat.
    + destruct (nth_error (data g) (current_index g)) as [dp|] eqn:Hnth;
        [|discriminate].
      injection Hstep as <- <-. exact (consistent_tick env _ g dp Hc Hnth).
    + injection Hstep as <- <-. apply consistent_reset.
Qed.

Lemma reachable_consistent (pc : Loc) (g : Globals) :
  reachable pc g -> consistent pc g.
Proof.
  induction 1 as [|env pc g pc' g' _ IH Hstep].
  - exact consistent_init.
  - exact (consistent_step env pc pc' g g' IH Hstep).
Qed.

(** The buffer is the part of the source already replayed in this cycle. *)
Lemma reachable_stream_prefix (pc : Loc) (g : Globals) :
  reachable pc g ->
  data_stream g = firstn (current_index g) (data g) /\
  (current_index g <= length (data g))%nat.
Proof.
  intros Hr. destruct (reachable_consistent pc g Hr) as [_ _ Hi _ Hpre _].
  split; [exact Hpre|].
  rewrite Hpre, length_firstn in Hi. lia.
Qed.

(** The subscript [data[current_index]] is guarded by the loop test. *)
Lemma engine_step_no_index_error (env : Env) (pc : Loc) (g : Globals) :
  engine_step env pc g <> IndexError.
Proof.
  destruct pc; simpl.
  - destruct (data g); [destruct (load_dataset env)|]; discriminate.
  - destruct (Nat.ltb_spec (current_index g) (length (data g))) as [Hlt|Hge];
      [|discriminate].
    destruct (nth_error (data g) (current_index g)) eqn:Hnth; [discriminate|].
    apply nth_error_None in Hnth. lia.
Qed.

Lemma reachable_after_first_tick : reachable InnerLoop after_first_tick.
Proof.
  apply (reachable_step load_two InnerLoop
           {| data_stream := []; anomaly_flags := []; current_index := 0%nat;
              total_processing_time := 0; processed_points := 0%nat;
              data := two_readings |}).
  - apply (reachable_step load_two OuterLoop init).
    + exact reachable_init.
    + reflexivity.
  - reflexivity.
Qed.

Lemma reachable_after_last_tick : reachable InnerLoop after_last_tick.
Proof.
  apply (reachable_step load_two InnerLoop after_first_tick).
  - exact reachable_after_first_tick.
  - reflexivity.
Qed.

(** ** Claims about the shared globals *)

(** C5: in every state the thread can be in between two steps, hence in
    every state a reader holding the lock can see, [anomaly_flags] and
    [data_stream] have the same length; and under every schedule of thread
    steps interleaved with requests from there on, every [get_data] reply
    carries two lists of one length. *)
Theorem flags_length_invariant (pc : Loc) (g : Globals) :
  reachable pc g ->
  length (anomaly_flags g) = length (data_stream g) /\
  forall acts, Forall aligned (interleave acts pc g).
Proof.
  intros Hr. split.
  - exact (flags_aligned _ _ (reachable_consistent pc g Hr)).
  - intros acts. revert pc g Hr.
    induction acts as [|[env|r] acts IH]; intros pc g Hr; cbn [interleave].
    + constructor.
    + destruct (engine_step env pc g) as [pc' g'| |] eqn:Hstep;
        [|constructor|constructor].
      apply IH. exact (reachable_step env pc g pc' g' Hr Hstep).
    + constructor; [|apply IH; exact Hr].
      destruct r; [|exact I].
      cbn [serve aligned get_data fst snd]. rewrite !py_last_length.
      rewrite (flags_aligned _ _ (reachable_consistent pc g Hr)). reflexivity.
Qed.

Lemma flags_length_invariant_witness :
  reachable InnerLoop after_first_tick /\
  length (anomaly_flags after_first_tick) = length (data_stream after_first_tick) /\
  Forall aligned
    (interleave [Serve GetData; EngineStep load_two; Serve GetData;
                 EngineStep load_two; Serve GetData]
       InnerLoop after_first_tick).
Proof.
  split; [exact reachable_after_first_tick|].
  destruct (flags_length_invariant InnerLoop after_first_tick
              reachable_after_first_tick) as [Hlen Hall].
  split; [exact Hlen|apply Hall].
Defined.

(** C10: in every such state [processed_points], the length of
    [data_stream] and [current_index] are equal; a tick adds one to each of
    the three and the reset sets the three to zero. *)
Theorem counters_agree (pc : Loc) (g : Globals) :
  reachable pc g ->
  (processed_points g = length (data_stream g) /\
   length (data_stream g) = current_index g) /\
  (forall env dp,
     length (data_stream (tick env dp g)) = S (length (data_stream g)) /\
     processed_points (tick env dp g) = S (processed_points g) /\
     current_index (tick env dp g) = S (current_index g)) /\
  (length (data_stream (reset g)) = 0%nat /\
   processed_points (reset g) = 0%nat /\
   current_index (reset g) = 0%nat).
Proof.
  intros Hr. destruct (reachable_consistent pc g Hr) as [_ Hp Hi _ _ _].
  repeat split.
  - exact Hp.
  - symmetry. exact Hi.
  - cbn [tick data_stream]. rewrite length_app. simpl. lia.
Qed.

Lemma counters_agree_witness :
  reachable InnerLoop after_last_tick /\
  processed_points after_last_tick = length (data_stream after_last_tick) /\
  length (data_stream after_last_tick) = current_index after_last_tick.
Proof.
  split; [exact reachable_after_last_tick|].
  exact (proj1 (counters_agree InnerLoop after_last_tick
                  reachable_after_last_tick)).
Defined.

(** C6, as stated, fails: the tick of the last reading and the reset are
    two lock blocks, and a request served between them sees the cursor at
    the source length with the whole source in the buffer.  After the two
    ticks over [two_readings] the snapshot shows two data points and
    [processed_points = 2]. *)
Lemma full_buffer_seen_before_reset :
  reachable InnerLoop after_last_tick /\
  current_index after_last_tick = length (data after_last_tick) /\
  interleave [Serve GetData; Serve GetMetrics] InnerLoop after_last_tick
  = [DataReply [reading 1; reading 2] [0%Z; 0%Z];
     MetricsReply (get_metrics after_last_tick)] /\
  total_points (get_metrics after_last_tick) = 2%nat /\
  processed_points after_last_tick = 2%nat.
Proof.
  split; [exact reachable_after_last_tick|].
  repeat split.
Qed.

(** C6, amended: when [current_index] equals the length of the source the
    next step of the thread is the reset block, one step: it sets
    [current_index] to 0, empties [data_stream] and [anomaly_flags] and
    zeroes the two processing counters, and the requests served after it
    get an empty buffer and metrics computed from [processed_points = 0].
    The requests served before it, after the tick of the last reading,
    still get the full buffer: the whole source is held and
    [processed_points] is its length. *)
Theorem cycle_reset (env : Env) (g : Globals) :
  current_index g = length (data g) ->
  engine_step env InnerLoop g = Running OuterLoop (reset g) /\
  current_index (reset g) = 0%nat /\
  data_stream (reset g) = [] /\
  anomaly_flags (reset g) = [] /\
  total_processing_time (reset g) = 0 /\
  processed_points (reset g) = 0%nat /\
  data (reset g) = data g /\
  interleave [EngineStep env; Serve GetData; Serve GetMetrics] InnerLoop g
  = [DataReply [] [];
     MetricsReply {| total_points := 0%nat; anomalies_detected := 0%Z;
                     average_processing_time := 0;
                     average_current_value := 0 |}] /\
  (reachable InnerLoop g ->
   data_stream g = data g /\
   processed_points g = length (data g) /\
   total_points (get_metrics g) = length (data g) /\
   interleave [Serve GetData; EngineStep env; Serve GetData] InnerLoop g
   = [DataReply (py_last 100 (data g)) (py_last 100 (anomaly_flags g));
      DataReply [] []]).
Proof.
  intros H.
  assert (Hstep : engine_step env InnerLoop g = Running OuterLoop (reset g)).
  { simpl.
    destruct (Nat.ltb_spec (current_index g) (length (data g))) as [Hlt|_];
      [lia|reflexivity]. }
  split; [exact Hstep|].
  do 6 (split; [reflexivity|]).
  split; [cbn [interleave]; rewrite Hstep; reflexivity|].
  intros Hr.
  destruct (reachable_stream_prefix InnerLoop g Hr) as [Hpre _].
  rewrite H, firstn_all in Hpre.
  pose proof (processed_is_length _ _ (reachable_consistent InnerLoop g Hr))
    as Hp.
  split; [exact Hpre|]. split; [rewrite Hp, Hpre; reflexivity|].
  split; [cbn [get_metrics total_points]; rewrite Hpre; reflexivity|].
  cbn [interleave]. rewrite Hstep.
  cbn [serve get_data fst snd interleave]. rewrite Hpre. reflexivity.
Qed.

Lemma cycle_reset_witness :
  current_index after_last_tick = length (data after_last_tick) /\
  reachable InnerLoop after_last_tick /\
  engine_step load_two InnerLoop after_last_tick
  = Running OuterLoop (reset after_last_tick) /\
  data_stream after_last_tick = data after_last_tick.
Proof.
  assert (H : current_index after_last_tick = length (data after_last_tick))
    by reflexivity.
  split; [exact H|]. split; [exact reachable_after_last_tick|].
  destruct (cycle_reset load_two after_last_tick H)
    as (Hstep & _ & _ & _ & _ & _ & _ & _ & Hbefore).
  split; [exact Hstep|].
  exact (proj1 (Hbefore reachable_after_last_tick)).
Defined.

(** The tick of the last reading brings the cursor to the source length. *)
Lemma last_tick_reaches_end (env : Env) (g : Globals) :
  S (current_index g) = length (data g) ->
  exists dp,
    engine_step env InnerLoop g = Running InnerLoop (tick env dp g) /\
    current_index (tick env dp g) = length (data (tick env dp g)).
Proof.
  intros H. simpl.
  destruct (Nat.ltb_spec (current_index g) (length (data g))) as [Hlt|Hge];
    [|lia].
  destruct (nth_error (data g) (current_index g)) as [dp|] eqn:Hnth.
  - exists dp. split; [reflexivity|]. exact H.
  - apply nth_error_None in Hnth. lia.
Qed.

(** ** Claims about the endpoints *)

Lemma nth_error_py_last {A : Type} (n : nat) (l : list A) (i : nat) :
  nth_error (py_last n l) i = nth_error l (length l - Nat.min n (length l) + i).
Proof.
  unfold py_last. rewrite nth_error_skipn. f_equal. lia.
Qed.

(** C7: in every state between two steps, [get_data] returns the last
    [min 100 (len data_stream)] entries of [data_stream] and the flags at
    the same indices, two lists of that one length; never more than 100
    entries and never more than the buffer holds. *)
Theorem get_data_recent (pc : Loc) (g : Globals) :
  reachable pc g ->
  let k := Nat.min 100 (length (data_stream g)) in
  let first := (length (data_stream g) - k)%nat in
  fst (get_data g) = skipn first (data_stream g) /\
  snd (get_data g) = skipn first (anomaly_flags g) /\
  length (fst (get_data g)) = k /\
  length (snd (get_data g)) = k /\
  (k <= 100)%nat /\
  (k <= length (data_stream g))%nat /\
  forall i, (i < k)%nat ->
    nth_error (fst (get_data g)) i = nth_error (data_stream g) (first + i) /\
    nth_error (snd (get_data g)) i = nth_error (anomaly_flags g) (first + i).
Proof.
  intros Hr k first.
  pose proof (flags_aligned _ _ (reachable_consistent pc g Hr)) as Hf.
  unfold get_data. cbn [fst snd].
  repeat split.
  - unfold py_last, first, k. f_equal. lia.
  - unfold py_last, first, k. f_equal. lia.
  - rewrite py_last_length. reflexivity.
  - rewrite py_last_length, Hf. reflexivity.
  - unfold k. lia.
  - unfold k. lia.
  - rewrite nth_error_py_last. reflexivity.
  - rewrite nth_error_py_last, Hf. reflexivity.
Qed.

Lemma get_data_recent_witness :
  reachable InnerLoop after_last_tick /\
  fst (get_data after_last_tick) = [reading 1; reading 2] /\
  snd (get_data after_last_tick) = [0%Z; 0%Z].
Proof.
  split; [exact reachable_after_last_tick|].
  destruct (get_data_recent InnerLoop after_last_tick reachable_after_last_tick)
    as (Hp & Hf & _).
  split.
  - rewrite Hp. reflexivity.
  - rewrite Hf. reflexivity.
Defined.

Lemma fold_left_Zadd_acc (l : list Z) (a : Z) :
  fold_left Z.add l a = (a + py_sum_int l)%Z.
Proof.
  unfold py_sum_int. revert a.
  induction l as [|x l IH]; intros a; simpl.
  - lia.
  - rewrite (IH (a + x)%Z), (IH x). lia.
Qed.

Lemma py_sum_int_cons (x : Z) (l : list Z) :
  py_sum_int (x :: l) = (x + py_sum_int l)%Z.
Proof.
  unfold py_sum_int at 1. simpl. apply fold_left_Zadd_acc.
Qed.

(** The sum of a list of 0/1 flags counts its 1s. *)
Lemma py_sum_int_binary (flags : list Z) :
  Forall (fun f => f = 0%Z \/ f = 1%Z) flags ->
  py_sum_int flags = Z.of_nat (count_occ Z.eq_dec flags 1%Z).
Proof.
  induction 1 as [|f flags Hf _ IH].
  - reflexivity.
  - rewrite py_sum_int_cons, IH.
    destruct Hf as [-> | ->].
    + rewrite count_occ_cons_neq by discriminate. lia.
    + rewrite count_occ_cons_eq by reflexivity. lia.
Qed.

(** C8: in every state between two steps, [get_metrics] returns the buffer
    length, the number of flags equal to 1, the total processing time over
    the processed count (0 when that count is 0) and the arithmetic mean of
    the buffered values (0 when the buffer is empty). *)
Theorem get_metrics_snapshot (pc : Loc) (g : Globals) :
  reachable pc g ->
  total_points (get_metrics g) = length (data_stream g) /\
  anomalies_detected (get_metrics g)
  = Z.of_nat (count_occ Z.eq_dec (anomaly_flags g) 1%Z) /\
  (processed_points g = 0%nat -> average_processing_time (get_metrics g) = 0) /\
  (processed_points g <> 0%nat ->
   average_processing_time (get_metrics g)
   = total_processing_time g / INR (processed_points g)) /\
  (data_stream g = [] -> average_current_value (get_metrics g) = 0) /\
  (data_stream g <> [] ->
   average_current_value (get_metrics g) = mean_of (map Current (data_stream g))).
Proof.
  intros Hr.
  pose proof (flags_binary _ _ (reachable_consistent pc g Hr)) as Hb.
  unfold get_metrics.
  cbn [total_points anomalies_detected average_processing_time
       average_current_value].
  split; [reflexivity|]. split; [exact (py_sum_int_binary _ Hb)|].
  split; [|split; [|split]].
  - intros ->. reflexivity.
  - intros Hp.
    destruct (Nat.ltb_spec 0 (processed_points g)) as [_|Hz];
      [reflexivity|lia].
  - intros ->. reflexivity.
  - intros Hne.
    destruct (Nat.ltb_spec 0 (length (data_stream g))) as [_|Hz].
    + unfold mean_of. rewrite length_map. reflexivity.
    + destruct (data_stream g); [contradiction|simpl in Hz; lia].
Qed.

Lemma get_metrics_snapshot_witness :
  reachable InnerLoop after_last_tick /\
  total_points (get_metrics after_last_tick) = 2%nat /\
  anomalies_detected (get_metrics after_last_tick) = 0%Z.
Proof.
  split; [exact reachable_after_last_tick|].
  destruct (get_metrics_snapshot InnerLoop after_last_tick
              reachable_after_last_tick) as (Ht & Ha & _).
  split.
  - rewrite Ht. reflexivity.
  - rewrite Ha. reflexivity.
Defined.

(** ** Claims about startup *)



(** [load_dataset] never returns an empty list. *)
Lemma load_dataset_not_empty (env : Env) : load_dataset env <> Some [].
Proof.
  unfold load_dataset. destruct (dataset_rows env) as [[|r rows]|]; discriminate.
Qed.


(** For as long as the engine thread runs, the process answers as the
    schedule of thread steps and requests does. *)
Lemma process_extends_interleave (acts : list Action) (pc : Loc) (g : Globals) :
  exists rest, process acts (Started pc) g = interleave acts pc g ++ rest.
Proof.
  revert pc g. induction acts as [|[env|r] acts IH]; intros pc g;
    cbn [process interleave].
  - exists []. reflexivity.
  - destruct (engine_step env pc g) as [pc' g'|code|].
    + apply IH.
    + eexists. reflexivity.
    + eexists. reflexivity.
  - destruct (IH pc g) as [rest ->]. exists rest. reflexivity.
Qed.



(** * Further properties of the code *)

(** ** What the verdict depends on *)

(** X4.  The verdict is a function of the values of the forty-nine most recent
    readings and of the candidate: timestamps and older readings play no
    part. *)
Theorem classify_local (window window' : list Reading)
        (candidate candidate' : Reading) :
  (50 <= length window)%nat ->
  (50 <= length window')%nat ->
  map Current (py_last 49 window) = map Current (py_last 49 window') ->
  Current candidate = Current candidate' ->
  classify window candidate = classify window' candidate'.
Proof.
  intros H H' Hw Hc.
  rewrite !classify_warm by assumption.
  rewrite !tick_sample_snoc, Hw, Hc. reflexivity.
Qed.

Lemma classify_local_witness :
  (50 <= length flat_history)%nat /\
  (50 <= length (reading 1 :: reading 2 :: flat_history))%nat /\
  classify flat_history (reading 100)
  = classify (reading 1 :: reading 2 :: flat_history)
      (mkReading "2020-03-09 10:15:00" 100).
Proof.
  assert (H : (50 <= length flat_history)%nat).
  { unfold flat_history. rewrite repeat_length. lia. }
  assert (H' : (50 <= length (reading 1 :: reading 2 :: flat_history))%nat).
  { unfold flat_history. cbn [length]. rewrite repeat_length. lia. }
  split; [exact H|]. split; [exact H'|].
  apply (classify_local flat_history (reading 1 :: reading 2 :: flat_history)
           (reading 100) (mkReading "2020-03-09 10:15:00" 100) H H');
    reflexivity.
Defined.

(** ** The buffer and the flags as functions of the source *)

(** X5.  In every state between two steps the buffer is the part of the source
    replayed so far in this cycle, in source order; the cursor never passes
    the end of the source; and [get_data] returns the last hundred of the
    readings replayed so far. *)
Theorem replayed_prefix (pc : Loc) (g : Globals) :
  reachable pc g ->
  data_stream g = firstn (current_index g) (data g) /\
  (current_index g <= length (data g))%nat /\
  fst (get_data g) = py_last 100 (firstn (current_index g) (data g)).
Proof.
  intros Hr. destruct (reachable_stream_prefix pc g Hr) as [Hpre Hle].
  split; [exact Hpre|]. split; [exact Hle|].
  unfold get_data. cbn [fst]. rewrite <- Hpre. reflexivity.
Qed.

Lemma replayed_prefix_witness :
  reachable InnerLoop after_first_tick /\
  data_stream after_first_tick
  = firstn (current_index after_first_tick) (data after_first_tick).
Proof.
  split; [exact reachable_after_first_tick|].
  exact (proj1 (replayed_prefix InnerLoop after_first_tick
                  reachable_after_first_tick)).
Defined.

(** X6.  A step of the thread never raises [IndexError], and the only way it
    stops is [exit(1)] from a failed load, tried at the head of the outer
    loop while no data is held. *)
Theorem engine_stops_only_on_failed_load (env : Env) (pc : Loc) (g : Globals) :
  engine_step env pc g <> IndexError /\
  ((exists pc' g', engine_step env pc g = Running pc' g') \/
   (pc = OuterLoop /\ data g = [] /\ load_dataset env = None /\
    engine_step env pc g = Exit 1)).
Proof.
  split; [apply engine_step_no_index_error|].
  destruct pc; simpl.
  - destruct (data g) as [|r d].
    + destruct (load_dataset env) as [d|].
      * left. eauto.
      * right. repeat split; reflexivity.
    + left. eauto.
  - destruct (Nat.ltb_spec (current_index g) (length (data g))) as [Hlt|Hge].
    + destruct (nth_error (data g) (current_index g)) as [dp|] eqn:Hnth.
      * left. eauto.
      * apply nth_error_None in Hnth. lia.
    + left. eauto.
Qed.

Lemma tick_flags_follow (env : Env) (dp : Reading) (g : Globals) :
  length (anomaly_flags g) = length (data_stream g) ->
  (forall i r, nth_error (data_stream g) i = Some r ->
     nth_error (anomaly_flags g) i
     = Some (classify (firstn i (data_stream g)) r)) ->
  forall i r, nth_error (data_stream (tick env dp g)) i = Some r ->
    nth_error (anomaly_flags (tick env dp g)) i
    = Some (classify (firstn i (data_stream (tick env dp g))) r).
Proof.
  intros Hlen IH i r.
  cbn [tick data_stream anomaly_flags].
  destruct (Nat.lt_ge_cases i (length (data_stream g))) as [Hlt|Hge].
  - rewrite nth_error_app1 by exact Hlt. intros Hi.
    rewrite nth_error_app1 by (rewrite Hlen; exact Hlt).
    rewrite firstn_app.
    replace (i - length (data_stream g))%nat with 0%nat by lia.
    cbn [firstn]. rewrite app_nil_r. apply IH. exact Hi.
  - rewrite nth_error_app2 by exact Hge. intros Hi.
    destruct (i - length (data_stream g))%nat as [|k] eqn:Hk.
    + assert (i = length (data_stream g)) by lia. subst i.
      cbn in Hi. injection Hi as <-.
      rewrite nth_error_app2 by (rewrite Hlen; lia).
      rewrite Hlen, Nat.sub_diag. cbn [nth_error].
      rewrite firstn_app, firstn_all, Nat.sub_diag. cbn [firstn].
      rewrite app_nil_r. reflexivity.
    + cbn in Hi. destruct k; discriminate.
Qed.

Lemma reachable_flags_follow (pc : Loc) (g : Globals) :
  reachable pc g ->
  forall i r, nth_error (data_stream g) i = Some r ->
    nth_error (anomaly_flags g) i
    = Some (classify (firstn i (data_stream g)) r).
Proof.
  induction 1 as [|env pc g pc' g' Hr IH Hstep].
  - intros [|i] r H; discriminate.
  - pose proof (flags_aligned _ _ (reachable_consistent pc g Hr)) as Hlen.
    destruct pc; simpl in Hstep.
    + destruct (data g) as [|r0 d].
      * destruct (load_dataset env) as [d|]; [|discriminate].
        injection Hstep as <- <-. exact IH.
      * injection Hstep as <- <-. exact IH.
    + destruct (current_index g <? length (data g))%nat.
      * destruct (nth_error (data g) (current_index g)) as [dp|];
          [|discriminate].
        injection Hstep as <- <-. apply tick_flags_follow; assumption.
      * injection Hstep as <- <-. intros [|i] r H; discriminate.
Qed.

(** X7.  In every state between two steps, the flag at index [i] is the verdict
    on the [i]-th reading of the source against the readings of the source
    before it: the flags are a function of the source and the cursor. *)
Theorem flags_determined_by_source (pc : Loc) (g : Globals) :
  reachable pc g ->
  forall i r, (i < current_index g)%nat ->
    nth_error (data g) i = Some r ->
    nth_error (anomaly_flags g) i = Some (classify (firstn i (data g)) r).
Proof.
  intros Hr i r Hi Hnth.
  destruct (reachable_stream_prefix pc g Hr) as [Hpre Hle].
  pose proof (reachable_flags_follow pc g Hr i r) as H.
  rewrite Hpre in H. rewrite nth_error_firstn in H.
  destruct (Nat.ltb_spec i (current_index g)) as [_|Hge]; [|lia].
  rewrite firstn_firstn in H.
  replace (Nat.min i (current_index g)) with i in H by lia.
  apply H. exact Hnth.
Qed.

Lemma flags_determined_by_source_witness :
  reachable InnerLoop after_last_tick /\
  (1 < current_index after_last_tick)%nat /\
  nth_error (data after_last_tick) 1 = Some (reading 2) /\
  nth_error (anomaly_flags after_last_tick) 1
  = Some (classify [reading 1] (reading 2)).
Proof.
  assert (Hi : (1 < current_index after_last_tick)%nat)
    by (cbn; lia).
  assert (Hn : nth_error (data after_last_tick) 1 = Some (reading 2))
    by reflexivity.
  split; [exact reachable_after_last_tick|].
  split; [exact Hi|]. split; [exact Hn|].
  exact (flags_determined_by_source InnerLoop after_last_tick
           reachable_after_last_tick 1%nat (reading 2) Hi Hn).
Defined.

(** X8.  The replay does not depend on timing: two states between steps that
    hold the same source and stand at the same cursor hold the same buffer
    and the same flags, whatever the clocks read on the way. *)
Theorem replay_is_reproducible (pc1 pc2 : Loc) (g1 g2 : Globals) :
  reachable pc1 g1 -> reachable pc2 g2 ->
  data g1 = data g2 -> current_index g1 = current_index g2 ->
  data_stream g1 = data_stream g2 /\ anomaly_flags g1 = anomaly_flags g2.
Proof.
  intros H1 H2 Hd Hi.
  destruct (reachable_stream_prefix pc1 g1 H1) as [Hp1 _].
  destruct (reachable_stream_prefix pc2 g2 H2) as [Hp2 _].
  assert (Hds : data_stream g1 = data_stream g2)
    by (rewrite Hp1, Hp2, Hd, Hi; reflexivity).
  split; [exact Hds|].
  pose proof (flags_aligned _ _ (reachable_consistent pc1 g1 H1)) as Hl1.
  pose proof (flags_aligned _ _ (reachable_consistent pc2 g2 H2)) as Hl2.
  apply nth_error_ext. intros i.
  destruct (nth_error (data_stream g1) i) as [r|] eqn:Hr.
  - rewrite (reachable_flags_follow pc1 g1 H1 i r Hr).
    rewrite Hds in Hr.
    rewrite (reachable_flags_follow pc2 g2 H2 i r Hr), Hds. reflexivity.
  - apply nth_error_None in Hr.
    assert (E1 : nth_error (anomaly_flags g1) i = None)
      by (apply nth_error_None; lia).
    assert (E2 : nth_error (anomaly_flags g2) i = None)
      by (apply nth_error_None; rewrite Hl2, <- Hds; lia).
    rewrite E1, E2. reflexivity.
Qed.

Lemma reachable_after_first_tick_slow : reachable InnerLoop after_first_tick_slow.
Proof.
  apply (reachable_step load_two_slow InnerLoop (fresh two_readings)).
  - apply (reachable_step load_two_slow OuterLoop init).
    + exact reachable_init.
    + reflexivity.
  - reflexivity.
Qed.

Lemma replay_is_reproducible_witness :
  reachable InnerLoop after_first_tick /\
  reachable InnerLoop after_first_tick_slow /\
  total_processing_time after_first_tick
  <> total_processing_time after_first_tick_slow /\
  anomaly_flags after_first_tick = anomaly_flags after_first_tick_slow.
Proof.
  split; [exact reachable_after_first_tick|].
  split; [exact reachable_after_first_tick_slow|].
  split.
  - cbn. lra.
  - exact (proj2 (replay_is_reproducible InnerLoop InnerLoop
                    after_first_tick after_first_tick_slow
                    reachable_after_first_tick
                    reachable_after_first_tick_slow eq_refl eq_refl)).
Defined.

(** ** Counting anomalies *)

Lemma py_sum_int_app (l1 l2 : list Z) :
  py_sum_int (l1 ++ l2) = (py_sum_int l1 + py_sum_int l2)%Z.
Proof.
  induction l1 as [|x l1 IH]; [reflexivity|].
  cbn [app]. rewrite !py_sum_int_cons, IH. lia.
Qed.

Lemma py_sum_int_zeros (l : list Z) :
  Forall (fun f => f = 0%Z) l -> py_sum_int l = 0%Z.
Proof.
  induction 1 as [|f l Hf _ IH]; [reflexivity|].
  rewrite py_sum_int_cons, IH, Hf. reflexivity.
Qed.

Lemma py_sum_int_binary_bounds (l : list Z) :
  Forall (fun f => f = 0%Z \/ f = 1%Z) l ->
  (0 <= py_sum_int l <= Z.of_nat (length l))%Z.
Proof.
  induction 1 as [|f l Hf _ IH]; [cbn; lia|].
  rewrite py_sum_int_cons. cbn [length]. destruct Hf as [-> | ->]; lia.
Qed.

Lemma reachable_cold_flags (pc : Loc) (g : Globals) :
  reachable pc g ->
  forall i, (i < 50)%nat -> (i < length (anomaly_flags g))%nat ->
    nth_error (anomaly_flags g) i = Some 0%Z.
Proof.
  intros Hr i Hi Hlen.
  rewrite (flags_aligned _ _ (reachable_consistent pc g Hr)) in Hlen.
  destruct (nth_error (data_stream g) i) as [r|] eqn:Hnth.
  - rewrite (reachable_flags_follow pc g Hr i r Hnth).
    f_equal. apply classify_cold. rewrite length_firstn. lia.
  - apply nth_error_None in Hnth. lia.
Qed.

(** X9.  In every state between two steps the first fifty flags of the cycle
    are 0, so [get_metrics] reports between 0 and [total_points - 50]
    anomalies (0 while the buffer holds at most fifty readings). *)
Theorem anomalies_detected_bounds (pc : Loc) (g : Globals) :
  reachable pc g ->
  (forall i, (i < 50)%nat -> (i < length (anomaly_flags g))%nat ->
     nth_error (anomaly_flags g) i = Some 0%Z) /\
  (0 <= anomalies_detected (get_metrics g)
   <= Z.of_nat (total_points (get_metrics g) - 50))%Z.
Proof.
  intros Hr. split; [exact (reachable_cold_flags pc g Hr)|].
  destruct (reachable_consistent pc g Hr) as [Hlen _ _ Hbin _ _].
  unfold get_metrics. cbn [anomalies_detected total_points].
  assert (Hsum : py_sum_int (anomaly_flags g)
                 = (py_sum_int (firstn 50 (anomaly_flags g))
                    + py_sum_int (skipn 50 (anomaly_flags g)))%Z)
    by (rewrite <- py_sum_int_app, firstn_skipn; reflexivity).
  rewrite <- (firstn_skipn 50 (anomaly_flags g)) in Hbin.
  apply Forall_app in Hbin. destruct Hbin as [_ Hrest].
  rewrite Hsum.
  rewrite (py_sum_int_zeros (firstn 50 (anomaly_flags g))).
  - pose proof (py_sum_int_binary_bounds _ Hrest) as Hb.
    rewrite length_skipn, Hlen in Hb. lia.
  - apply Forall_forall. intros f Hf.
    apply In_nth_error in Hf. destruct Hf as [i Hi].
    rewrite nth_error_firstn in Hi.
    destruct (Nat.ltb_spec i 50) as [Hlt|_]; [|discriminate].
    assert (Hil : (i < length (anomaly_flags g))%nat)
      by (apply nth_error_Some; rewrite Hi; discriminate).
    rewrite (reachable_cold_flags pc g Hr i Hlt Hil) in Hi.
    injection Hi as <-. reflexivity.
Qed.

Lemma anomalies_detected_bounds_witness :
  reachable InnerLoop after_last_tick /\
  (0 <= anomalies_detected (get_metrics after_last_tick)
   <= Z.of_nat (total_points (get_metrics after_last_tick) - 50))%Z.
Proof.
  split; [exact reachable_after_last_tick|].
  exact (proj2 (anomalies_detected_bounds InnerLoop after_last_tick
                  reachable_after_last_tick)).
Defined.

(** ** Whole cycles of the replay *)

Lemma run_ticks (envs : nat -> Env) (d : list Reading) (k : nat) :
  (k <= length d)%nat ->
  exists g,
    run envs k InnerLoop (fresh d) = Running InnerLoop g /\
    data_stream g = firstn k d /\ current_index g = k /\ data g = d.
Proof.
  induction k as [|k IH]; intros Hk.
  - exists (fresh d). repeat split; reflexivity.
  - destruct IH as (g & Hrun & Hds & Hidx & Hdata); [lia|].
    cbn [run]. rewrite Hrun. cbn [engine_step]. rewrite Hdata, Hidx.
    destruct (Nat.ltb_spec k (length d)) as [_|Hge]; [|lia].
    destruct (nth_error d k) as [dp|] eqn:Hnth.
    + exists (tick (envs k) dp g). split; [reflexivity|].
      cbn [tick data_stream current_index data].
      rewrite Hds, Hidx, Hdata, (firstn_succ_nth_error _ _ _ Hnth).
      repeat split; reflexivity.
    + apply nth_error_None in Hnth. lia.
Qed.

(** X10.  From the state a reset leaves, with a non-empty source held, [len(data)]
    steps replay the whole source in order, the next step is the reset, and
    the step after it is back at the head of the inner loop in the state the
    cycle started from: the replay is periodic, of period [len(data) + 2]
    steps, whatever the clocks read and whatever a load would return. *)
Theorem full_cycle (envs : nat -> Env) (d : list Reading) :
  d <> [] ->
  (exists g,
     run envs (length d) InnerLoop (fresh d) = Running InnerLoop g /\
     data_stream g = d /\ current_index g = length d) /\
  run envs (length d + 1) InnerLoop (fresh d) = Running OuterLoop (fresh d) /\
  run envs (length d + 2) InnerLoop (fresh d) = Running InnerLoop (fresh d).
Proof.
  intros Hne.
  destruct (run_ticks envs d (length d) (Nat.le_refl _))
    as (g & Hrun & Hds & Hidx & Hdata).
  rewrite firstn_all in Hds.
  assert (H1 : run envs (length d + 1) InnerLoop (fresh d)
               = Running OuterLoop (fresh d)).
  { replace (length d + 1)%nat with (S (length d)) by lia.
    cbn [run]. rewrite Hrun. cbn [engine_step]. rewrite Hdata, Hidx.
    rewrite Nat.ltb_irrefl. unfold reset, fresh. rewrite Hdata. reflexivity. }
  split; [exists g; auto|]. split; [exact H1|].
  replace (length d + 2)%nat with (S (length d + 1)) by lia.
  cbn [run]. rewrite H1. cbn [engine_step fresh data].
  destruct d; [contradiction|reflexivity].
Qed.

Lemma full_cycle_witness :
  two_readings <> [] /\
  run load_once (length two_readings + 2) InnerLoop (fresh two_readings)
  = Running InnerLoop (fresh two_readings).
Proof.
  assert (H : two_readings <> []) by discriminate.
  split; [exact H|].
  exact (proj2 (proj2 (full_cycle load_once two_readings H))).
Defined.

Lemma engine_step_keeps_data (env : Env) (pc : Loc) (g : Globals) :
  data g <> [] ->
  exists pc' g', engine_step env pc g = Running pc' g' /\ data g' = data g.
Proof.
  intros Hne. destruct pc; cbn [engine_step].
  - destruct (data g) as [|r d] eqn:Hd; [contradiction|].
    exists InnerLoop, g. rewrite Hd. split; reflexivity.
  - destruct (Nat.ltb_spec (current_index g) (length (data g))) as [Hlt|Hge].
    + destruct (nth_error (data g) (current_index g)) as [dp|] eqn:Hnth.
      * exists InnerLoop, (tick env dp g). split; reflexivity.
      * apply nth_error_None in Hnth. lia.
    + exists OuterLoop, (reset g). split; reflexivity.
Qed.

(** X11.  Once a first load has returned a non-empty source, the thread runs for
    ever on that source: no later step stops, the source held never
    changes, and no later result of [load_dataset] is looked at. *)
Theorem loaded_once_runs_forever (envs : nat -> Env) (d : list Reading) :
  load_dataset (envs 0%nat) = Some d -> d <> [] ->
  forall n, exists pc g,
    run envs (S n) OuterLoop init = Running pc g /\ data g = d.
Proof.
  intros Hload Hne n. induction n as [|n IH].
  - cbn [run engine_step init data]. rewrite Hload.
    eexists _, _. split; reflexivity.
  - destruct IH as (pc & g & Hrun & Hdata).
    destruct (engine_step_keeps_data (envs (S n)) pc g) as (pc' & g' & Hs & Hd');
      [rewrite Hdata; exact Hne|].
    exists pc', g'. split; [|rewrite Hd'; exact Hdata].
    change (run envs (S (S n)) OuterLoop init)
      with (match run envs (S n) OuterLoop init with
            | Running pc0 g0 => engine_step (envs (S n)) pc0 g0
            | stopped => stopped
            end).
    rewrite Hrun. exact Hs.
Qed.

Lemma loaded_once_runs_forever_witness :
  load_dataset (load_once 0%nat) = Some two_readings /\
  two_readings <> [] /\
  load_dataset (load_once 1%nat) = None /\
  exists pc g,
    run load_once 10 OuterLoop init = Running pc g /\ data g = two_readings.
Proof.
  assert (Hload : load_dataset (load_once 0%nat) = Some two_readings)
    by reflexivity.
  assert (Hne : two_readings <> []) by discriminate.
  split; [exact Hload|]. split; [exact Hne|]. split; [reflexivity|].
  exact (loaded_once_runs_forever load_once two_readings Hload Hne 9%nat).
Defined.

(** ** The metrics *)

Lemma engine_step_time_nonneg (env : Env) (pc pc' : Loc) (g g' : Globals) :
  start_time env <= end_time env ->
  0 <= total_processing_time g ->
  engine_step env pc g = Running pc' g' ->
  0 <= total_processing_time g'.
Proof.
  intros Hclk Ht Hstep. destruct pc; cbn [engine_step] in Hstep.
  - destruct (data g).
    + destruct (load_dataset env); [|discriminate].
      injection Hstep as <- <-. exact Ht.
    + injection Hstep as <- <-. exact Ht.
  - destruct (current_index g <? length (data g))%nat.
    + destruct (nth_error (data g) (current_index g)); [|discriminate].
      injection Hstep as <- <-. cbn [tick total_processing_time]. nra.
    + injection Hstep as <- <-. cbn. lra.
Qed.

(** X13.  If the clock never runs backwards inside a tick, the accumulated
    processing time and the average [get_metrics] reports are never
    negative. *)
Theorem processing_time_nonneg (envs : nat -> Env) (n : nat)
        (pc : Loc) (g : Globals) :
  monotone_clock envs ->
  run envs n OuterLoop init = Running pc g ->
  0 <= total_processing_time g /\
  0 <= average_processing_time (get_metrics g).
Proof.
  intros Hclk Hrun.
  assert (Ht : 0 <= total_processing_time g).
  { revert pc g Hrun. induction n as [|n IH]; intros pc g Hrun.
    - injection Hrun as <- <-. cbn. lra.
    - cbn [run] in Hrun.
      destruct (run envs n OuterLoop init) as [pc0 g0| |]; try discriminate.
      exact (engine_step_time_nonneg (envs n) pc0 pc g0 g (Hclk n)
               (IH pc0 g0 eq_refl) Hrun). }
  split; [exact Ht|].
  unfold get_metrics. cbn [average_processing_time].
  destruct (Nat.ltb_spec 0 (processed_points g)) as [Hpos|_]; [|lra].
  apply Rmult_le_pos; [exact Ht|].
  apply Rlt_le, Rinv_0_lt_compat. apply (lt_INR 0). exact Hpos.
Qed.

Lemma processing_time_nonneg_witness :
  monotone_clock load_once /\
  run load_once 2 OuterLoop init = Running InnerLoop (tick one_ms (reading 1) (fresh two_readings)) /\
  0 <= average_processing_time
         (get_metrics (tick one_ms (reading 1) (fresh two_readings))).
Proof.
  assert (Hclk : monotone_clock load_once).
  { intros [|k]; cbn; lra. }
  assert (Hrun : run load_once 2 OuterLoop init
                 = Running InnerLoop (tick one_ms (reading 1) (fresh two_readings)))
    by reflexivity.
  split; [exact Hclk|]. split; [exact Hrun|].
  exact (proj2 (processing_time_nonneg load_once 2 InnerLoop _ Hclk Hrun)).
Defined.

(** ** The recent-data reply after a tick *)

Lemma skipn_S_tl {A : Type} (k : nat) (l : list A) :
  skipn (S k) l = tl (skipn k l).
Proof.
  revert l. induction k as [|k IH]; intros l.
  - destruct l; reflexivity.
  - destruct l as [|x l]; [reflexivity|].
    change (skipn (S (S k)) (x :: l)) with (skipn (S k) l).
    change (skipn (S k) (x :: l)) with (skipn k l). apply IH.
Qed.

Lemma py_last_pred_tl {A : Type} (n : nat) (l : list A) :
  (S n <= length l)%nat -> py_last n l = tl (py_last (S n) l).
Proof.
  intros H. unfold py_last.
  replace (length l - n)%nat with (S (length l - S n)) by lia.
  apply skipn_S_tl.
Qed.

(** X14.  Right after a tick the [get_data] reply ends with the reading just
    processed and its verdict, preceded by the last ninety-nine entries
    held before; once a hundred readings are held, the reply is the
    previous reply with its oldest entry dropped and the new one added. *)
Theorem get_data_after_tick (env : Env) (dp : Reading) (g : Globals) :
  fst (get_data (tick env dp g)) = py_last 99 (data_stream g) ++ [dp] /\
  snd (get_data (tick env dp g))
  = py_last 99 (anomaly_flags g) ++ [classify (data_stream g) dp] /\
  ((100 <= length (data_stream g))%nat ->
   fst (get_data (tick env dp g)) = tl (fst (get_data g)) ++ [dp]) /\
  ((100 <= length (anomaly_flags g))%nat ->
   snd (get_data (tick env dp g))
   = tl (snd (get_data g)) ++ [classify (data_stream g) dp]).
Proof.
  unfold get_data. cbn [fst snd tick data_stream anomaly_flags].
  fold (classify (data_stream g) dp).
  rewrite !py_last_snoc.
  split; [reflexivity|]. split; [reflexivity|].
  split; intros H; rewrite (py_last_pred_tl 99) by exact H; reflexivity.
Qed.

Lemma get_data_after_tick_witness :
  (100 <= length (data_stream hundred_globals))%nat /\
  fst (get_data (tick one_ms (reading 7) hundred_globals))
  = tl (fst (get_data hundred_globals)) ++ [reading 7].
Proof.
  assert (H : (100 <= length (data_stream hundred_globals))%nat).
  { cbn [hundred_globals data_stream]. rewrite repeat_length. lia. }
  split; [exact H|].
  destruct (get_data_after_tick one_ms (reading 7) hundred_globals)
    as (_ & _ & Hslide & _).
  exact (Hslide H).
Defined.

(** ** The two endpoints against each other *)

(** X15.  While the buffer holds at most a hundred readings, the two endpoints
    agree: the metrics count the entries of the [get_data] reply, sum its
    flags and average its values. *)
Theorem metrics_match_recent_data (pc : Loc) (g : Globals) :
  reachable pc g ->
  (length (data_stream g) <= 100)%nat ->
  total_points (get_metrics g) = length (fst (get_data g)) /\
  anomalies_detected (get_metrics g) = py_sum_int (snd (get_data g)) /\
  (data_stream g <> [] ->
   average_current_value (get_metrics g)
   = mean_of (map Current (fst (get_data g)))).
Proof.
  intros Hr Hlen.
  pose proof (flags_aligned _ _ (reachable_consistent pc g Hr)) as Hf.
  unfold get_data. cbn [fst snd].
  rewrite !py_last_short by lia.
  split; [reflexivity|]. split; [reflexivity|].
  intros Hne. unfold get_metrics, mean_of. cbn [average_current_value].
  rewrite length_map.
  destruct (Nat.ltb_spec 0 (length (data_stream g))) as [_|Hz];
    [reflexivity|].
  destruct (data_stream g); [contradiction|simpl in Hz; lia].
Qed.

Lemma metrics_match_recent_data_witness :
  reachable InnerLoop after_last_tick /\
  (length (data_stream after_last_tick) <= 100)%nat /\
  total_points (get_metrics after_last_tick)
  = length (fst (get_data after_last_tick)).
Proof.
  assert (H : (length (data_stream after_last_tick) <= 100)%nat)
    by (cbn; lia).
  split; [exact reachable_after_last_tick|]. split; [exact H|].
  exact (proj1 (metrics_match_recent_data InnerLoop after_last_tick
                  reachable_after_last_tick H)).
Defined.
